(** * build_manifest.py: long-to-wide reshaping of a paired-end manifest

    The script reads [manifest.tsv] (one row per read file, with a
    [direction] column), keeps the forward rows and the reverse rows as two
    two-column frames, joins them on [sample-id] and writes the result to
    [manifest_v2.tsv].

    The development has three layers:
    - [Pandas]: the table operations the script calls, on a positional
      model of a data frame (column labels and rows of cells);
    - [Script]: the eight statements of the script, first as a pure
      computation on the parsed frame, then as a program over a file store
      and a standard output;
    - the properties of the script.

    Cells are strings, integers or the missing value; floating-point
    columns are outside the model.  The text parser behind [pd.read_csv]
    is not part of the repository and is a parameter of the effectful
    layer. *)

From Stdlib Require Import Ascii String ZArith.
From stdpp Require Import gmap strings list pretty.

Open Scope string_scope.

(** ** Exceptions and the result monad *)

Inductive exn :=
  | FileNotFoundError (path : string)
  | ParserError
  | KeyError (labels : list string)
  | ValueError.

Inductive result (A : Type) :=
  | Ok (a : A)
  | Raise (e : exn).
Arguments Ok {A} a.
Arguments Raise {A} e.

#[global] Instance result_ret : MRet result := λ A a, Ok a.
#[global] Instance result_bind : MBind result := λ A B k m,
  match m with
  | Ok a => k a
  | Raise e => Raise e
  end.

Definition is_ok {A} (m : result A) : bool :=
  match m with Ok _ => true | Raise _ => false end.

(** ** The pandas operations used by the script *)

Module Pandas.

(** A cell of an object or integer column, or the missing value. *)
Inductive scalar :=
  | Str (s : string)
  | Int (z : Z)
  | NaN.

#[global] Instance scalar_eq_dec : EqDecision scalar.
Proof. solve_decision. Defined.

Definition Series := list scalar.

(** Column labels, and the rows in file order.  Labels produced by the
    reader are pairwise distinct (repeated header names are renamed on
    input), so a label denotes the first column that carries it. *)
Record DataFrame := {
  columns : list string;
  values : list (list scalar)
}.

#[global] Instance DataFrame_eq_dec : EqDecision DataFrame.
Proof. solve_decision. Defined.

(** [Index.get_loc]: position of a label. *)
Fixpoint get_loc (label : string) (cols : list string) : option nat :=
  match cols with
  | [] => None
  | c :: cs => if decide (c = label) then Some 0 else S <$> get_loc label cs
  end.

(** The cell of a row at a position; short rows are padded with [NaN]. *)
Definition cell (i : nat) (row : list scalar) : scalar := nth i row NaN.

(** [df[label]]: one column as a series. *)
Definition getitem (df : DataFrame) (label : string) : result Series :=
  match get_loc label (columns df) with
  | Some i => Ok (map (cell i) (values df))
  | None => Raise (KeyError [label])
  end.

(** Python's [==] on cells: the missing value equals nothing. *)
Definition scalar_eqb (x y : scalar) : bool :=
  match x with
  | NaN => false
  | _ => bool_decide (x = y)
  end.

(** [series == value], elementwise. *)
Definition series_eq (s : Series) (v : scalar) : list bool :=
  map (λ x, scalar_eqb x v) s.

Fixpoint select_rows {A} (mask : list bool) (rows : list A) : list A :=
  match mask, rows with
  | b :: mask', r :: rows' =>
      if b then r :: select_rows mask' rows' else select_rows mask' rows'
  | _, _ => []
  end.

(** [df[mask]]: the rows where the mask holds; a mask of the wrong length
    is rejected. *)
Definition getitem_mask (df : DataFrame) (mask : list bool) : result DataFrame :=
  if decide (length mask = length (values df))
  then Ok {| columns := columns df; values := select_rows mask (values df) |}
  else Raise ValueError.

(** [df[[l1, ..., ln]]]: the listed columns, in the listed order. *)
Definition getitem_list (df : DataFrame) (labels : list string) : result DataFrame :=
  match filter (λ l, get_loc l (columns df) = None) labels with
  | [] =>
      let locs := omap (λ l, get_loc l (columns df)) labels in
      Ok {| columns := labels;
            values := map (λ row, map (λ i, cell i row) locs) (values df) |}
  | missing => Raise (KeyError missing)
  end.

(** [df.columns = labels]: relabelling, with the length check. *)
Definition set_columns (df : DataFrame) (labels : list string) : result DataFrame :=
  if decide (length labels = length (columns df))
  then Ok {| columns := labels; values := values df |}
  else Raise ValueError.

(** [pd.merge(left, right, on=key)] with the defaults [how="inner"],
    [sort=False], [suffixes=("_x", "_y")].

    The result has the columns of [left], then those of [right] without
    the key; a label carried by both sides other than the key gets the
    side's suffix.  The rows are, for each row of [left] in order, one row
    per row of [right] (in order) with the same key.  Missing keys match
    each other.  The rows of both frames have one cell per column, as the
    frames built by [getitem_list] do.  (How the rows of a many-to-many
    join are ordered has changed between pandas releases; the properties
    proved of the join are on membership and counts.) *)
Definition suffixed (sfx : string) (key : string) (other : list string)
    (c : string) : string :=
  if decide (c ≠ key ∧ c ∈ other) then c ++ sfx else c.

Definition merge_columns (lcols rcols : list string) (key : string) (j : nat)
    : list string :=
  (map (suffixed "_x" key rcols) lcols ++
   map (suffixed "_y" key lcols) (delete j rcols))%list.

Definition merge_rows (i j : nat) (lrows rrows : list (list scalar))
    : list (list scalar) :=
  l ← lrows;
  (λ r, (l ++ delete j r)%list) <$> filter (λ r, cell j r = cell i l) rrows.

Definition merge (left right : DataFrame) (on : string) : result DataFrame :=
  match get_loc on (columns left), get_loc on (columns right) with
  | Some i, Some j =>
      Ok {| columns := merge_columns (columns left) (columns right) on j;
            values := merge_rows i j (values left) (values right) |}
  | _, _ => Raise (KeyError [on])
  end.

End Pandas.

(** ** The CSV writer behind [DataFrame.to_csv] *)

Module Csv.
Import Pandas.

Definition tab : ascii := "009"%char.
Definition LF : ascii := "010"%char.
Definition CR : ascii := "013"%char.
Definition quotechar : ascii := "034"%char.

(** [os.linesep] on the POSIX systems the workflow runs on. *)
Definition linesep : string := String LF "".

Fixpoint contains (c : ascii) (s : string) : bool :=
  match s with
  | EmptyString => false
  | String a s' => if decide (a = c) then true else contains c s'
  end.

Fixpoint double_quotes (s : string) : string :=
  match s with
  | EmptyString => EmptyString
  | String a s' =>
      if decide (a = quotechar)
      then String a (String a (double_quotes s'))
      else String a (double_quotes s')
  end.

(** Minimal quoting: a field is quoted when it holds the separator, the
    quote character or a line break; quote characters are doubled. *)
Definition needs_quote (sep : ascii) (field : string) : bool :=
  contains sep field || contains quotechar field ||
  contains LF field || contains CR field.

Definition csv_field (sep : ascii) (field : string) : string :=
  if needs_quote sep field
  then String quotechar (double_quotes field ++ String quotechar "")
  else field.

(** One record; a record made of a single empty field is written quoted. *)
Definition csv_line (sep : ascii) (fields : list string) : string :=
  match fields with
  | [EmptyString] => String quotechar (String quotechar linesep)
  | _ => String.concat (String sep "") (csv_field sep <$> fields) ++ linesep
  end.

(** Cells as text, with the default [na_rep=""]. *)
Definition format_scalar (x : scalar) : string :=
  match x with
  | Str s => s
  | Int z => pretty z
  | NaN => ""
  end.

Definition format_row (row : list scalar) : list string :=
  format_scalar <$> row.

(** The records written for a frame: the header, then the rows; with
    [index=True] each record starts with the row number (unlabelled in the
    header). *)
Definition csv_records (df : DataFrame) (index : bool) : list (list string) :=
  let header := if index then "" :: columns df else columns df in
  let body := imap (λ n row,
                if index then pretty (Z.of_nat n) :: format_row row
                else format_row row) (values df) in
  header :: body.

Definition to_csv_text (df : DataFrame) (sep : ascii) (index : bool) : string :=
  String.concat "" (csv_line sep <$> csv_records df index).

End Csv.

(** ** The process state and the I/O monad *)

Record world := {
  fs : gmap string string;
  stdout : list string
}.

Definition io (A : Type) : Type := world → result A * world.

#[global] Instance io_ret : MRet io := λ A a w, (Ok a, w).
#[global] Instance io_bind : MBind io := λ A B k m w,
  match m w with
  | (Ok a, w') => k a w'
  | (Raise e, w') => (Raise e, w')
  end.

Definition lift {A} (m : result A) : io A := λ w, (m, w).

(** ** The script *)

Module Script.
Import Pandas Csv.

(** *** The table computation

    [fwd] and [rev] are lines 5-6 and 8-9: the rows of one direction, the
    two columns kept, the path column relabelled.  [manifest_v2] is their
    join (line 11), as a function of the frame read. *)

Definition fwd (df : DataFrame) : result DataFrame :=
  direction ← getitem df "direction";
  rows ← getitem_mask df (series_eq direction (Str "forward"));
  sub ← getitem_list rows ["sample-id"; "absolute-filepath"];
  set_columns sub ["sample-id"; "forward-absolute-filepath"].

Definition rev (df : DataFrame) : result DataFrame :=
  direction ← getitem df "direction";
  rows ← getitem_mask df (series_eq direction (Str "reverse"));
  sub ← getitem_list rows ["sample-id"; "absolute-filepath"];
  set_columns sub ["sample-id"; "reverse-absolute-filepath"].

Definition manifest_v2 (df : DataFrame) : result DataFrame :=
  f ← fwd df;
  r ← rev df;
  merge f r "sample-id".

(** *** The program

    [read_csv] (line 3) looks the path up in the file store and parses the
    text; [to_csv] (line 12) replaces the content of the path; [print]
    (line 14) appends a line to the standard output.  An exception ends
    the run in the state reached so far. *)

Section Program.

(** The text parser of [pd.read_csv]: separator and file text to a frame,
    or an exception. *)
Variable parse : ascii → string → result DataFrame.

Definition read_csv (path : string) (sep : ascii) : io DataFrame := λ w,
  match fs w !! path with
  | Some text => (parse sep text, w)
  | None => (Raise (FileNotFoundError path), w)
  end.

Definition to_csv (df : DataFrame) (path : string) (sep : ascii)
    (index : bool) : io unit := λ w,
  (Ok (), {| fs := <[path := to_csv_text df sep index]> (fs w);
             stdout := stdout w |}).

Definition print (line : string) : io unit := λ w,
  (Ok (), {| fs := fs w; stdout := stdout w ++ [line] |}).

(** The script, statement by statement. *)
Definition main : io unit :=
  df ← read_csv "manifest.tsv" tab;
  fwd ← lift (fwd df);
  rev ← lift (rev df);
  manifest_v2 ← lift (merge fwd rev "sample-id");
  to_csv manifest_v2 "manifest_v2.tsv" tab false;;
  print "manifest_v2.tsv created successfully".

End Program.

End Script.

(** ** The tables as records *)

Import Pandas Csv Script.

(** One row of the long manifest: the three cells the script reads. *)
Record ManifestRow := {
  sample_id : scalar;
  direction : scalar;
  absolute_filepath : scalar
}.

(** One row of the wide manifest. *)
Record WideManifestRow := {
  wide_sample_id : scalar;
  forward_filepath : scalar;
  reverse_filepath : scalar
}.

#[global] Instance ManifestRow_eq_dec : EqDecision ManifestRow.
Proof. solve_decision. Defined.
#[global] Instance WideManifestRow_eq_dec : EqDecision WideManifestRow.
Proof. solve_decision. Defined.

Definition required_columns : list string :=
  ["sample-id"; "direction"; "absolute-filepath"].

Definition output_columns : list string :=
  ["sample-id"; "forward-absolute-filepath"; "reverse-absolute-filepath"].

(** The rows of [df[["sample-id", "direction", "absolute-filepath"]]]. *)
Definition long_rows (df : DataFrame) : result (list ManifestRow) :=
  t ← getitem_list df required_columns;
  mret ((λ row, {| sample_id := cell 0 row;
                   direction := cell 1 row;
                   absolute_filepath := cell 2 row |}) <$> values t).

(** The rows of a three-column frame. *)
Definition wide_rows (out : DataFrame) : list WideManifestRow :=
  (λ row, {| wide_sample_id := cell 0 row;
             forward_filepath := cell 1 row;
             reverse_filepath := cell 2 row |}) <$> values out.

Definition wide_cells (w : WideManifestRow) : list scalar :=
  [wide_sample_id w; forward_filepath w; reverse_filepath w].

Definition is_forward (r : ManifestRow) : Prop := direction r = Str "forward".
Definition is_reverse (r : ManifestRow) : Prop := direction r = Str "reverse".

#[global] Instance is_forward_dec r : Decision (is_forward r).
Proof. unfold is_forward. apply _. Defined.
#[global] Instance is_reverse_dec r : Decision (is_reverse r).
Proof. unfold is_reverse. apply _. Defined.

(** The rows of one direction that carry a given sample id. *)
Definition forward_of (s : scalar) (rows : list ManifestRow) : list ManifestRow :=
  filter (λ r, sample_id r = s) (filter is_forward rows).
Definition reverse_of (s : scalar) (rows : list ManifestRow) : list ManifestRow :=
  filter (λ r, sample_id r = s) (filter is_reverse rows).

(** The sample ids of the input, each once. *)
Definition distinct_sample_ids (rows : list ManifestRow) : list scalar :=
  remove_dups (sample_id <$> rows).

(** The join written on records: every forward row, in order, paired with
    every reverse row of the same sample id. *)
Definition pair_up (f r : ManifestRow) : WideManifestRow :=
  {| wide_sample_id := sample_id f;
     forward_filepath := absolute_filepath f;
     reverse_filepath := absolute_filepath r |}.

Definition join (rows : list ManifestRow) : list WideManifestRow :=
  f ← filter is_forward rows;
  pair_up f <$> reverse_of (sample_id f) rows.

(** The header record of the output file. *)
Definition header_line : string :=
  "sample-id" ++ String tab ("forward-absolute-filepath" ++
  String tab ("reverse-absolute-filepath" ++ linesep)).

(** A data record of the output file whose cells are written as they
    are. *)
Definition data_line (w : WideManifestRow) : string :=
  format_scalar (wide_sample_id w) ++ String tab (
  format_scalar (forward_filepath w) ++ String tab (
  format_scalar (reverse_filepath w) ++ linesep)).

Definition input_path : string := "manifest.tsv".
Definition output_path : string := "manifest_v2.tsv".
Definition success_message : string := "manifest_v2.tsv created successfully".

(** The row of the long manifest read off a frame row, given the positions
    of the three columns. *)
Definition row_at (s d p : nat) (row : list scalar) : ManifestRow :=
  {| sample_id := cell s row;
     direction := cell d row;
     absolute_filepath := cell p row |}.

(** The pairing of two lists of rows on the sample id ([join] applies it
    to the forward and the reverse rows). *)
Definition pairs_of (F R : list ManifestRow) : list WideManifestRow :=
  f ← F; pair_up f <$> filter (λ r, sample_id r = sample_id f) R.

(** The ways the run can fail before the table computation is complete. *)
Inductive input_failure (parse : ascii → string → result DataFrame)
    (w : world) : Prop :=
  | input_not_found :
      fs w !! input_path = None → input_failure parse w
  | input_unreadable text e :
      fs w !! input_path = Some text → parse tab text = Raise e →
      input_failure parse w
  | column_absent text df c :
      fs w !! input_path = Some text → parse tab text = Ok df →
      c ∈ required_columns → get_loc c (columns df) = None →
      input_failure parse w.

(** ** A reader for plain manifests, and sample inputs

    One instance of the reader, used to run the program on the sample
    inputs: files without quoting whose cells are all text.  Records are
    lines, fields are split at the separator, the first record is the
    header and an empty field is a missing value.  The properties of the
    program are proved for every reader. *)

Module Plain.

Fixpoint split (c : ascii) (s : string) : list string :=
  match s with
  | EmptyString => [EmptyString]
  | String a s' =>
      if decide (a = c) then EmptyString :: split c s'
      else match split c s' with
           | field :: fields => String a field :: fields
           | [] => [String a EmptyString]
           end
  end.

Definition parse_cell (field : string) : scalar :=
  if decide (field = "") then NaN else Str field.

Definition parse (sep : ascii) (text : string) : result DataFrame :=
  match filter (λ line, line ≠ "") (split LF text) with
  | [] => Raise ParserError
  | header :: lines =>
      Ok {| columns := split sep header;
            values := (λ line, parse_cell <$> split sep line) <$> lines |}
  end.

(** The text of a file given its records. *)
Definition text_of (records : list (list string)) : string :=
  String.concat "" (csv_line tab <$> records).

End Plain.

Definition manifest_header : list string :=
  ["sample-id"; "absolute-filepath"; "direction"].

(** Two reads for S1, a lone forward read for S2. *)
Definition scenario_text : string :=
  Plain.text_of [manifest_header;
                 ["S1"; "/a/f1.fastq"; "forward"];
                 ["S1"; "/a/r1.fastq"; "reverse"];
                 ["S2"; "/a/f2.fastq"; "forward"]].

(** Two forward reads and one reverse read for S1. *)
Definition duplicate_text : string :=
  Plain.text_of [manifest_header;
                 ["S1"; "/a/f1.fastq"; "forward"];
                 ["S1"; "/a/f1b.fastq"; "forward"];
                 ["S1"; "/a/r1.fastq"; "reverse"]].

(** The scenario, with a lane column before and a comment column after. *)
Definition annotated_text : string :=
  Plain.text_of [["lane"; "sample-id"; "absolute-filepath"; "direction"; "note"];
                 ["L1"; "S1"; "/a/f1.fastq"; "forward"; "ok"];
                 ["L1"; "S1"; "/a/r1.fastq"; "reverse"; ""];
                 ["L2"; "S2"; "/a/f2.fastq"; "forward"; "rerun"]].

(** Two samples, each with its forward and its reverse read. *)
Definition paired_text : string :=
  Plain.text_of [manifest_header;
                 ["S1"; "/a/f1.fastq"; "forward"];
                 ["S1"; "/a/r1.fastq"; "reverse"];
                 ["S2"; "/a/f2.fastq"; "forward"];
                 ["S2"; "/a/r2.fastq"; "reverse"]].

(** A header and no data rows. *)
Definition empty_text : string := Plain.text_of [manifest_header].

(** A manifest without the direction column. *)
Definition headless_text : string :=
  Plain.text_of [["sample-id"; "absolute-filepath"];
                 ["S1"; "/a/f1.fastq"]].

(** A manifest without the path column. *)
Definition pathless_text : string :=
  Plain.text_of [["sample-id"; "direction"];
                 ["S1"; "forward"]].

(** The scenario with an index read and a row without direction added. *)
Definition mixed_text : string :=
  Plain.text_of [manifest_header;
                 ["S1"; "/a/f1.fastq"; "forward"];
                 ["S3"; "/a/i3.fastq"; "index"];
                 ["S1"; "/a/r1.fastq"; "reverse"];
                 ["S3"; "/a/x3.fastq"; ""];
                 ["S2"; "/a/f2.fastq"; "forward"]].

(** The paired samples, rows in another order. *)
Definition shuffled_text : string :=
  Plain.text_of [manifest_header;
                 ["S2"; "/a/r2.fastq"; "reverse"];
                 ["S1"; "/a/r1.fastq"; "reverse"];
                 ["S2"; "/a/f2.fastq"; "forward"];
                 ["S1"; "/a/f1.fastq"; "forward"]].

Definition frame_of (text : string) : DataFrame :=
  match Plain.parse tab text with
  | Ok df => df
  | Raise _ => {| columns := []; values := [] |}
  end.

Definition rows_of (text : string) : list ManifestRow :=
  match long_rows (frame_of text) with
  | Ok rows => rows
  | Raise _ => []
  end.

Definition world_with (text : string) : world :=
  {| fs := {[ input_path := text ]}; stdout := [] |}.

Definition empty_world : world := {| fs := ∅; stdout := [] |}.

(** ** Facts about the table operations *)

Section PandasFacts.

Lemma get_loc_lt label cols i :
  get_loc label cols = Some i → i < length cols.
Proof.
  revert i. induction cols as [|c cs IH]; intros i; simpl; [done|].
  case_decide.
  - intros [= <-]. lia.
  - destruct (get_loc label cs) as [k|]; simpl; [|done].
    intros [= <-]. specialize (IH k eq_refl). lia.
Qed.

(** A mask computed from a column of the frame selects by that column. *)
Lemma select_rows_series_eq i v (rows : list (list scalar)) :
  v ≠ NaN →
  select_rows (series_eq (map (cell i) rows) v) rows
  = filter (λ row, cell i row = v) rows.
Proof.
  intros Hv. induction rows as [|row rows IH]; simpl; [done|].
  rewrite filter_cons, IH. unfold scalar_eqb.
  destruct (cell i row) eqn:E; case_decide; try case_bool_decide;
    congruence.
Qed.

Lemma length_series_eq i v (rows : list (list scalar)) :
  length (series_eq (map (cell i) rows) v) = length rows.
Proof. unfold series_eq. by rewrite !length_map. Qed.

(** The inner join of two frames of key/value rows. *)
Lemma merge_row_pairs {B} (k a : scalar) (kb vb : B → scalar) (R : list B) :
  (λ r, ([k; a] ++ delete 0 r)%list) <$>
    filter (λ r, cell 0 r = cell 0 [k; a]) ((λ y, [kb y; vb y]) <$> R)
  = (λ y, [k; a; vb y]) <$> filter (λ y, kb y = k) R.
Proof.
  induction R as [|y R IH]; [done|].
  rewrite fmap_cons, !filter_cons.
  change (cell 0 [kb y; vb y]) with (kb y).
  change (cell 0 [k; a]) with k in *.
  case_decide; rewrite ?fmap_cons, IH; done.
Qed.

Lemma merge_rows_pairs {A B} (ka va : A → scalar) (kb vb : B → scalar)
    (L : list A) (R : list B) :
  merge_rows 0 0 ((λ x, [ka x; va x]) <$> L) ((λ y, [kb y; vb y]) <$> R)
  = x ← L; (λ y, [ka x; va x; vb y]) <$> filter (λ y, kb y = ka x) R.
Proof.
  unfold merge_rows. induction L as [|x L IH]; [done|].
  rewrite fmap_cons, !bind_cons, IH. f_equal.
  apply merge_row_pairs.
Qed.

End PandasFacts.

(** ** The table computation, row by row *)

Section Pipeline.

Variable df : DataFrame.
Variables s d p : nat.
Hypothesis Hs : get_loc "sample-id" (columns df) = Some s.
Hypothesis Hd : get_loc "direction" (columns df) = Some d.
Hypothesis Hp : get_loc "absolute-filepath" (columns df) = Some p.

Lemma long_rows_at : long_rows df = Ok (row_at s d p <$> values df).
Proof.
  unfold long_rows, getitem_list, required_columns.
  rewrite !filter_cons, filter_nil, Hs, Hd, Hp. simpl.
  rewrite ?Hs, ?Hd, ?Hp. simpl. unfold mret, result_ret. f_equal.
  rewrite <- list_fmap_compose. done.
Qed.

Lemma side_at (v : string) (label : string) :
  (direction' ← getitem df "direction";
   rows ← getitem_mask df (series_eq direction' (Str v));
   sub ← getitem_list rows ["sample-id"; "absolute-filepath"];
   set_columns sub ["sample-id"; label])
  = Ok {| columns := ["sample-id"; label];
          values := (λ r, [sample_id r; absolute_filepath r]) <$>
                    filter (λ r, direction r = Str v) (row_at s d p <$> values df) |}.
Proof.
  unfold getitem. rewrite Hd. simpl.
  unfold getitem_mask. rewrite length_series_eq.
  rewrite decide_True by done. simpl.
  rewrite select_rows_series_eq by done.
  unfold getitem_list. simpl.
  rewrite !filter_cons, filter_nil, Hs, Hp. simpl.
  rewrite ?Hs, ?Hp. simpl. unfold set_columns. simpl. f_equal. f_equal.
  induction (values df) as [|row rows IH]; [done|].
  rewrite fmap_cons, !filter_cons. simpl.
  case_decide; simpl; by rewrite IH.
Qed.

Lemma wide_cells_join (F R : list ManifestRow) :
  (x ← F; (λ y, [sample_id x; absolute_filepath x; absolute_filepath y]) <$>
          filter (λ y, sample_id y = sample_id x) R)
  = wide_cells <$> (f ← F; pair_up f <$> filter (λ r, sample_id r = sample_id f) R).
Proof.
  induction F as [|f F IH]; [done|].
  rewrite !bind_cons, fmap_app, <- IH. f_equal.
  rewrite <- list_fmap_compose. done.
Qed.

Lemma manifest_v2_at :
  manifest_v2 df
  = Ok {| columns := output_columns;
          values := wide_cells <$> join (row_at s d p <$> values df) |}.
Proof.
  unfold manifest_v2, fwd, rev. rewrite !side_at. simpl.
  unfold merge. simpl. f_equal. f_equal.
  rewrite merge_rows_pairs. apply wide_cells_join.
Qed.

End Pipeline.

(** The three required columns are exactly what the computation needs. *)
Lemma long_rows_inv df rows :
  long_rows df = Ok rows →
  ∃ s d p,
    get_loc "sample-id" (columns df) = Some s ∧
    get_loc "direction" (columns df) = Some d ∧
    get_loc "absolute-filepath" (columns df) = Some p ∧
    rows = row_at s d p <$> values df.
Proof.
  intros H.
  destruct (get_loc "sample-id" (columns df)) as [s|] eqn:Hs;
  destruct (get_loc "direction" (columns df)) as [d|] eqn:Hd;
  destruct (get_loc "absolute-filepath" (columns df)) as [p|] eqn:Hp;
    try (exfalso; revert H; unfold long_rows, getitem_list, required_columns;
         rewrite !filter_cons, filter_nil, Hs, Hd, Hp; simpl; discriminate).
  exists s, d, p. rewrite (long_rows_at df s d p Hs Hd Hp) in H.
  by injection H as <-.
Qed.

Lemma long_rows_ok_iff df :
  is_ok (long_rows df) = true ↔
  ∀ c, c ∈ required_columns → is_Some (get_loc c (columns df)).
Proof.
  split.
  - destruct (long_rows df) as [rows|] eqn:H; [|done]. intros _.
    destruct (long_rows_inv _ _ H) as (s & d & p & Hs & Hd & Hp & _).
    intros c Hc. unfold required_columns in Hc.
    rewrite !elem_of_cons, elem_of_nil in Hc.
    destruct Hc as [->|[->|[->|[]]]]; eauto.
  - intros H.
    destruct (H "sample-id") as [s Hs]; [set_solver|].
    destruct (H "direction") as [d Hd]; [set_solver|].
    destruct (H "absolute-filepath") as [p Hp]; [set_solver|].
    by rewrite (long_rows_at df s d p Hs Hd Hp).
Qed.

Lemma manifest_v2_spec df rows :
  long_rows df = Ok rows →
  manifest_v2 df
  = Ok {| columns := output_columns; values := wide_cells <$> join rows |}.
Proof.
  intros H. destruct (long_rows_inv _ _ H) as (s & d & p & Hs & Hd & Hp & ->).
  by apply manifest_v2_at.
Qed.

Lemma manifest_v2_missing df c :
  c ∈ required_columns → get_loc c (columns df) = None →
  ∃ labels, manifest_v2 df = Raise (KeyError labels).
Proof.
  intros Hc Hnone. unfold manifest_v2, fwd, getitem.
  destruct (get_loc "direction" (columns df)) as [d|] eqn:Hd; [|by eexists].
  simpl. unfold getitem_mask. rewrite length_series_eq, decide_True by done.
  simpl. unfold getitem_list. simpl.
  unfold required_columns in Hc. rewrite !elem_of_cons, elem_of_nil in Hc.
  rewrite !filter_cons, filter_nil.
  destruct Hc as [->|[->|[->|[]]]]; [|congruence|].
  - rewrite Hnone. simpl. case_decide; by eexists.
  - rewrite Hnone. simpl. case_decide; by eexists.
Qed.

Lemma wide_rows_cells (ws : list WideManifestRow) out_columns :
  wide_rows {| columns := out_columns; values := wide_cells <$> ws |} = ws.
Proof.
  unfold wide_rows. simpl. rewrite <- list_fmap_compose.
  rewrite <- (list_fmap_id ws) at 2. apply list_fmap_ext.
  by intros _ [] _.
Qed.

(** ** Facts about the join on records *)

Lemma elem_of_join rows w :
  w ∈ join rows ↔
  ∃ f r, f ∈ rows ∧ is_forward f ∧ r ∈ rows ∧ is_reverse r ∧
         sample_id r = sample_id f ∧ w = pair_up f r.
Proof.
  unfold join, reverse_of. rewrite list_elem_of_bind. split.
  - intros (f & Hw & Hf). apply list_elem_of_fmap in Hw as (r & -> & Hr).
    apply list_elem_of_filter in Hf as [Hff Hf].
    apply list_elem_of_filter in Hr as [Hk Hr].
    apply list_elem_of_filter in Hr as [Hrr Hr].
    by exists f, r.
  - intros (f & r & Hf & Hff & Hr & Hrr & Hk & ->). exists f. split.
    + apply list_elem_of_fmap. exists r. by rewrite !list_elem_of_filter.
    + by rewrite list_elem_of_filter.
Qed.

Section JoinCounting.

Implicit Types (F R : list ManifestRow) (f r : ManifestRow).

Lemma join_pairs_of rows :
  join rows = pairs_of (filter is_forward rows) (filter is_reverse rows).
Proof. done. Qed.

Lemma filter_nonempty {A} (P : A → Prop) `{!∀ x, Decision (P x)}
    (l : list A) x :
  x ∈ l → P x → 0 < length (filter P l).
Proof.
  intros Hx HP.
  assert (x ∈ filter P l) as Hin by by apply list_elem_of_filter.
  destruct (filter P l); [by apply elem_of_nil in Hin | simpl; lia].
Qed.

Lemma filter_positive {A} (P : A → Prop) `{!∀ x, Decision (P x)}
    (l : list A) :
  0 < length (filter P l) → ∃ x, x ∈ l ∧ P x.
Proof.
  destruct (filter P l) as [|x k] eqn:E; simpl; [lia|]. intros _.
  assert (x ∈ filter P l) as Hin by (rewrite E; left).
  apply list_elem_of_filter in Hin as [HP Hx]. by exists x.
Qed.

Variables (Q : WideManifestRow → Prop) (Pf Pr : ManifestRow → Prop).
Context `{!∀ w, Decision (Q w), !∀ f, Decision (Pf f), !∀ r, Decision (Pr r)}.
Hypothesis Q_splits :
  ∀ f r, sample_id r = sample_id f ∧ Q (pair_up f r) ↔ Pf f ∧ Pr r.

Lemma length_filter_pairs_row f R :
  length (filter Q (pair_up f <$> filter (λ r, sample_id r = sample_id f) R))
  = if decide (Pf f) then length (filter Pr R) else 0.
Proof.
  induction R as [|r R IH].
  - by case_decide.
  - rewrite !filter_cons. pose proof (Q_splits f r) as Hq.
    destruct (decide (sample_id r = sample_id f)) as [Hk|Hk].
    + rewrite fmap_cons, filter_cons.
      destruct (decide (Q (pair_up f r))), (decide (Pf f)), (decide (Pr r));
        simpl; rewrite IH; try case_decide; try done; tauto.
    + rewrite IH.
      destruct (decide (Pf f)), (decide (Pr r)); simpl; try done; tauto.
Qed.

Lemma length_filter_pairs F R :
  length (filter Q (pairs_of F R))
  = length (filter Pf F) * length (filter Pr R).
Proof.
  unfold pairs_of. induction F as [|f F IH]; [done|].
  rewrite bind_cons, filter_app, length_app, IH, length_filter_pairs_row.
  rewrite filter_cons. case_decide; simpl; lia.
Qed.

End JoinCounting.

Lemma length_pairs_of_unique (F R : list ManifestRow) :
  (∀ f, f ∈ F → length (filter (λ r, sample_id r = sample_id f) R) = 1) →
  length (pairs_of F R) = length F.
Proof.
  unfold pairs_of. induction F as [|f F IH]; intros H; [done|].
  rewrite bind_cons, length_app, length_fmap, H by left.
  rewrite IH; [done|]. intros f' Hf'. apply H. by right.
Qed.

Lemma NoDup_fmap_unique {A B} `{!EqDecision B} (g : A → B) (l : list A) :
  (∀ y, (length (filter (λ x, g x = y) l) ≤ 1)%nat) → NoDup (g <$> l).
Proof.
  induction l as [|x l IH]; intros H; [constructor|].
  rewrite fmap_cons. constructor.
  - intros Hin. apply list_elem_of_fmap in Hin as (x' & Hg & Hx').
    specialize (H (g x)). rewrite filter_cons, decide_True in H by done.
    simpl in H.
    pose proof (filter_nonempty (λ x0, g x0 = g x) l x' Hx' (eq_sym Hg)). lia.
  - apply IH. intros y. specialize (H y). rewrite filter_cons in H.
    case_decide; simpl in H; lia.
Qed.

Lemma manifest_v2_inv df out :
  manifest_v2 df = Ok out →
  ∃ rows, long_rows df = Ok rows ∧
          out = {| columns := output_columns; values := wide_cells <$> join rows |}.
Proof.
  intros H.
  destruct (get_loc "sample-id" (columns df)) as [s|] eqn:Hs;
  destruct (get_loc "direction" (columns df)) as [d|] eqn:Hd;
  destruct (get_loc "absolute-filepath" (columns df)) as [p|] eqn:Hp.
  1: { exists (row_at s d p <$> values df). split; [by apply long_rows_at|].
       rewrite (manifest_v2_at df s d p Hs Hd Hp) in H. by injection H as <-. }
  all: exfalso.
  all: match goal with
       | Hn : get_loc ?c _ = None |- _ =>
           destruct (manifest_v2_missing df c) as [labels Hr];
           [unfold required_columns; set_solver | exact Hn | congruence]
       end.
Qed.

(** ** Facts about the program *)

Section ProgramFacts.

Variable parse : ascii → string → result DataFrame.

Lemma main_run w :
  main parse w =
  match fs w !! input_path with
  | None => (Raise (FileNotFoundError input_path), w)
  | Some text =>
      match parse tab text with
      | Raise e => (Raise e, w)
      | Ok df =>
          match manifest_v2 df with
          | Raise e => (Raise e, w)
          | Ok out =>
              (Ok (), {| fs := <[output_path := to_csv_text out tab false]> (fs w);
                         stdout := stdout w ++ [success_message] |})
          end
      end
  end.
Proof.
  unfold main, read_csv, lift, to_csv, print, mbind, io_bind, input_path.
  destruct (fs w !! "manifest.tsv") as [text|]; [|done].
  destruct (parse tab text) as [df|e]; [|done].
  unfold manifest_v2, mbind, result_bind.
  destruct (fwd df) as [f|e]; [|done].
  destruct (rev df) as [r|e]; [|done].
  destruct (merge f r "sample-id") as [out|e]; done.
Qed.

End ProgramFacts.

Lemma string_app_empty (s : string) : s ++ "" = s.
Proof.
  induction s as [|a s IH]; [done|].
  change (String a s ++ "") with (String a (s ++ "")). by rewrite IH.
Qed.

Lemma concat_empty_cons (x : string) (l : list string) :
  String.concat "" (x :: l) = x ++ String.concat "" l.
Proof. destruct l; [simpl; by rewrite string_app_empty | reflexivity]. Qed.

(** The text written for a frame with the output columns: the header
    record, then one record per row. *)
Lemma to_csv_text_output (rows : list (list scalar)) :
  to_csv_text {| columns := output_columns; values := rows |} tab false
  = header_line ++
    String.concat "" (csv_line tab <$> (format_row <$> rows)).
Proof.
  change (to_csv_text _ tab false) with
    (String.concat ""
       (csv_line tab <$>
          output_columns :: imap (const format_row) rows)).
  by rewrite imap_const, fmap_cons, concat_empty_cons.
Qed.

(** ** The sample inputs, evaluated *)

Example scenario_frame :
  Plain.parse tab scenario_text
  = Ok {| columns := ["sample-id"; "absolute-filepath"; "direction"];
          values := [[Str "S1"; Str "/a/f1.fastq"; Str "forward"];
                     [Str "S1"; Str "/a/r1.fastq"; Str "reverse"];
                     [Str "S2"; Str "/a/f2.fastq"; Str "forward"]] |}.
Proof. reflexivity. Qed.

Example scenario_output :
  manifest_v2 (frame_of scenario_text)
  = Ok {| columns := output_columns;
          values := [[Str "S1"; Str "/a/f1.fastq"; Str "/a/r1.fastq"]] |}.
Proof. reflexivity. Qed.

Example duplicate_output :
  manifest_v2 (frame_of duplicate_text)
  = Ok {| columns := output_columns;
          values := [[Str "S1"; Str "/a/f1.fastq"; Str "/a/r1.fastq"];
                     [Str "S1"; Str "/a/f1b.fastq"; Str "/a/r1.fastq"]] |}.
Proof. reflexivity. Qed.

Example headless_output :
  manifest_v2 (frame_of headless_text) = Raise (KeyError ["direction"]).
Proof. reflexivity. Qed.

Example scenario_run :
  main Plain.parse (world_with scenario_text)
  = (Ok (),
     {| fs := <[output_path :=
                  Plain.text_of [output_columns;
                                 ["S1"; "/a/f1.fastq"; "/a/r1.fastq"]]]>
                {[ input_path := scenario_text ]};
        stdout := [success_message] |}).
Proof. reflexivity. Qed.

(** ** Properties of the table computation *)

Lemma side_nonempty (P : ManifestRow → Prop) `{!∀ r, Decision (P r)} s rows :
  filter (λ r, sample_id r = s) (filter P rows) ≠ [] ↔
  ∃ r, r ∈ rows ∧ sample_id r = s ∧ P r.
Proof.
  split.
  - intros Hne.
    destruct (filter (λ r, sample_id r = s) (filter P rows)) as [|r k] eqn:E;
      [done|].
    assert (r ∈ filter (λ r, sample_id r = s) (filter P rows)) as Hin
      by (rewrite E; left).
    apply list_elem_of_filter in Hin as [Hs Hin].
    apply list_elem_of_filter in Hin as [HP Hin]. by exists r.
  - intros (r & Hin & Hs & HP) E.
    assert (r ∈ filter (λ r, sample_id r = s) (filter P rows)) as Hr
      by by rewrite !list_elem_of_filter.
    rewrite E in Hr. by apply elem_of_nil in Hr.
Qed.

(** A sample id has a forward (reverse) row when its list of forward
    (reverse) rows is not empty. *)
Lemma forward_of_nonempty s rows :
  forward_of s rows ≠ [] ↔ ∃ r, r ∈ rows ∧ sample_id r = s ∧ is_forward r.
Proof. apply side_nonempty. Qed.

Lemma reverse_of_nonempty s rows :
  reverse_of s rows ≠ [] ↔ ∃ r, r ∈ rows ∧ sample_id r = s ∧ is_reverse r.
Proof. apply side_nonempty. Qed.

(** Every sample id of the join has a forward and a reverse row. *)
Lemma join_sample_both rows w :
  w ∈ join rows →
  forward_of (wide_sample_id w) rows ≠ [] ∧
  reverse_of (wide_sample_id w) rows ≠ [].
Proof.
  intros (f & r & Hf & Hff & Hr & Hrr & Hk & ->)%elem_of_join. simpl. split.
  - apply forward_of_nonempty. by exists f.
  - apply reverse_of_nonempty. by exists r.
Qed.

(** C1. A sample id that has rows in one direction only (forward without
    reverse, or reverse without forward) is in no row of the output: the
    join keeps only the ids present on both sides. *)
Theorem one_direction_sample_absent df rows s :
  long_rows df = Ok rows →
  (forward_of s rows ≠ [] ∧ reverse_of s rows = []) ∨
  (reverse_of s rows ≠ [] ∧ forward_of s rows = []) →
  ∃ out, manifest_v2 df = Ok out ∧
         ∀ w, w ∈ wide_rows out → wide_sample_id w ≠ s.
Proof.
  intros Hrows Hone. eexists. split; [by apply manifest_v2_spec|].
  rewrite wide_rows_cells. intros w Hw <-.
  destruct (join_sample_both _ _ Hw) as [Hf Hr].
  destruct Hone as [[_ E]|[_ E]]; congruence.
Qed.

Lemma one_direction_sample_absent_witness :
  long_rows (frame_of scenario_text) = Ok (rows_of scenario_text) ∧
  forward_of (Str "S2") (rows_of scenario_text) ≠ [] ∧
  reverse_of (Str "S2") (rows_of scenario_text) = [] ∧
  ∃ out, manifest_v2 (frame_of scenario_text) = Ok out ∧
         ∀ w, w ∈ wide_rows out → wide_sample_id w ≠ Str "S2".
Proof.
  split; [reflexivity|]. split; [by vm_compute|]. split; [reflexivity|].
  apply (one_direction_sample_absent _ (rows_of scenario_text)).
  - reflexivity.
  - left. split; [by vm_compute | reflexivity].
Defined.

(** C2. In every output row, the forward path is the path of an input
    row with direction forward and the row's sample id, and the reverse
    path is the path of an input row with direction reverse and the same
    sample id. *)
Theorem output_paths_from_matching_rows df out :
  manifest_v2 df = Ok out →
  ∃ rows, long_rows df = Ok rows ∧
    ∀ w, w ∈ wide_rows out →
      (∃ f, f ∈ rows ∧ is_forward f ∧
            sample_id f = wide_sample_id w ∧
            absolute_filepath f = forward_filepath w) ∧
      (∃ r, r ∈ rows ∧ is_reverse r ∧
            sample_id r = wide_sample_id w ∧
            absolute_filepath r = reverse_filepath w).
Proof.
  intros (rows & Hrows & ->)%manifest_v2_inv. exists rows. split; [done|].
  rewrite wide_rows_cells.
  intros w (f & r & Hf & Hff & Hr & Hrr & Hk & ->)%elem_of_join. split.
  - by exists f.
  - by exists r.
Qed.

Lemma output_paths_from_matching_rows_witness :
  ∃ rows, long_rows (frame_of scenario_text) = Ok rows ∧
    ∀ w, w ∈ wide_rows
           {| columns := output_columns;
              values := [[Str "S1"; Str "/a/f1.fastq"; Str "/a/r1.fastq"]] |} →
      (∃ f, f ∈ rows ∧ is_forward f ∧
            sample_id f = wide_sample_id w ∧
            absolute_filepath f = forward_filepath w) ∧
      (∃ r, r ∈ rows ∧ is_reverse r ∧
            sample_id r = wide_sample_id w ∧
            absolute_filepath r = reverse_filepath w).
Proof.
  apply (output_paths_from_matching_rows (frame_of scenario_text)).
  reflexivity.
Defined.

Lemma forward_rows_per_sample rows :
  (∀ s, s ∈ sample_id <$> rows → length (forward_of s rows) = 1) →
  length (filter is_forward rows) = length (distinct_sample_ids rows).
Proof.
  intros H. rewrite <- (length_fmap sample_id (filter is_forward rows)).
  apply Permutation_length, NoDup_Permutation.
  - apply NoDup_fmap_unique. intros y.
    destruct (decide (y ∈ sample_id <$> rows)) as [Hy|Hy].
    + specialize (H y Hy). unfold forward_of in H. lia.
    + destruct (length (filter (λ x, sample_id x = y) (filter is_forward rows)))
        as [|n] eqn:E; [lia|]. exfalso. apply Hy.
      destruct (filter_positive (λ x, sample_id x = y) (filter is_forward rows))
        as (x & Hx & <-); [lia|].
      apply list_elem_of_filter in Hx as [_ Hx]. by apply list_elem_of_fmap_2.
  - apply NoDup_remove_dups.
  - intros x. unfold distinct_sample_ids. rewrite elem_of_remove_dups. split.
    + intros (f & -> & Hf)%list_elem_of_fmap.
      apply list_elem_of_filter in Hf as [_ Hf]. by apply list_elem_of_fmap_2.
    + intros Hx. specialize (H x Hx).
      destruct (filter_positive (λ r, sample_id r = x) (filter is_forward rows))
        as (f & Hf & <-); [unfold forward_of in H; lia|].
      by apply list_elem_of_fmap_2.
Qed.

(** C3. When every sample id of the input has exactly one forward row and
    exactly one reverse row, the output has as many rows as the input has
    distinct sample ids. *)
Theorem row_count_distinct_samples df rows :
  long_rows df = Ok rows →
  (∀ s, s ∈ sample_id <$> rows →
        length (forward_of s rows) = 1 ∧ length (reverse_of s rows) = 1) →
  ∃ out, manifest_v2 df = Ok out ∧
         length (values out) = length (distinct_sample_ids rows).
Proof.
  intros Hrows H. eexists. split; [by apply manifest_v2_spec|].
  simpl. rewrite length_fmap, join_pairs_of, length_pairs_of_unique.
  - apply forward_rows_per_sample. intros s Hs. by apply H.
  - intros f Hf. apply list_elem_of_filter in Hf as [_ Hf].
    apply (H (sample_id f)). by apply list_elem_of_fmap_2.
Qed.

Lemma row_count_distinct_samples_witness :
  long_rows (frame_of paired_text) = Ok (rows_of paired_text) ∧
  length (distinct_sample_ids (rows_of paired_text)) = 2 ∧
  ∃ out, manifest_v2 (frame_of paired_text) = Ok out ∧
         length (values out) = length (distinct_sample_ids (rows_of paired_text)).
Proof.
  split; [reflexivity|]. split; [reflexivity|].
  apply (row_count_distinct_samples (frame_of paired_text)); [reflexivity|].
  apply Forall_forall.
  set (ids := sample_id <$> rows_of paired_text). vm_compute in ids. subst ids.
  repeat (apply List.Forall_cons; [split; reflexivity|]). apply List.Forall_nil.
Defined.

(** C4. The join is the cross product per sample id, without
    deduplication: the output rows of a sample id number the forward rows
    times the reverse rows of that id, and each output row occurs as often
    as there are pairs of a forward row and a reverse row that produce it. *)
Theorem join_cross_product df rows :
  long_rows df = Ok rows →
  ∃ out, manifest_v2 df = Ok out ∧
    (∀ s, length (filter (λ w, wide_sample_id w = s) (wide_rows out))
          = length (forward_of s rows) * length (reverse_of s rows)) ∧
    (∀ w, length (filter (λ w', w' = w) (wide_rows out))
          = length (filter (λ f, sample_id f = wide_sample_id w ∧
                                 absolute_filepath f = forward_filepath w)
                      (filter is_forward rows))
            * length (filter (λ r, sample_id r = wide_sample_id w ∧
                                   absolute_filepath r = reverse_filepath w)
                        (filter is_reverse rows))).
Proof.
  intros Hrows. eexists. split; [by apply manifest_v2_spec|].
  rewrite wide_rows_cells, join_pairs_of. split.
  - intros s. apply length_filter_pairs. intros f r. simpl. split.
    + intros [Hk Hs]. split; congruence.
    + intros [Hf Hr]. split; congruence.
  - intros [s a b]. apply length_filter_pairs. intros f r.
    unfold pair_up. simpl. split.
    + intros [Hk [= <- <- <-]]. done.
    + intros [[<- <-] [Hk <-]]. done.
Qed.

Lemma join_cross_product_witness :
  long_rows (frame_of duplicate_text) = Ok (rows_of duplicate_text) ∧
  length (forward_of (Str "S1") (rows_of duplicate_text)) = 2 ∧
  ∃ out, manifest_v2 (frame_of duplicate_text) = Ok out ∧
    (∀ s, length (filter (λ w, wide_sample_id w = s) (wide_rows out))
          = length (forward_of s (rows_of duplicate_text))
            * length (reverse_of s (rows_of duplicate_text))) ∧
    (∀ w, length (filter (λ w', w' = w) (wide_rows out))
          = length (filter (λ f, sample_id f = wide_sample_id w ∧
                                 absolute_filepath f = forward_filepath w)
                      (filter is_forward (rows_of duplicate_text)))
            * length (filter (λ r, sample_id r = wide_sample_id w ∧
                                   absolute_filepath r = reverse_filepath w)
                        (filter is_reverse (rows_of duplicate_text)))).
Proof.
  split; [reflexivity|]. split; [reflexivity|].
  apply (join_cross_product (frame_of duplicate_text)). reflexivity.
Defined.

(** C5, as the code has it.  Every sample id of an output row has at least
    one forward row and at least one reverse row in the input. *)
Theorem output_sample_has_both_directions df out :
  manifest_v2 df = Ok out →
  ∃ rows, long_rows df = Ok rows ∧
    ∀ w, w ∈ wide_rows out →
      (1 ≤ length (forward_of (wide_sample_id w) rows))%nat ∧
      (1 ≤ length (reverse_of (wide_sample_id w) rows))%nat.
Proof.
  intros (rows & Hrows & ->)%manifest_v2_inv. exists rows. split; [done|].
  rewrite wide_rows_cells. intros w [Hf Hr]%join_sample_both.
  destruct (forward_of (wide_sample_id w) rows); [done|].
  destruct (reverse_of (wide_sample_id w) rows); [done|]. simpl. lia.
Qed.

Lemma output_sample_has_both_directions_witness :
  ∃ rows, long_rows (frame_of duplicate_text) = Ok rows ∧
    ∀ w, w ∈ wide_rows
           {| columns := output_columns;
              values := [[Str "S1"; Str "/a/f1.fastq"; Str "/a/r1.fastq"];
                         [Str "S1"; Str "/a/f1b.fastq"; Str "/a/r1.fastq"]] |} →
      (1 ≤ length (forward_of (wide_sample_id w) rows))%nat ∧
      (1 ≤ length (reverse_of (wide_sample_id w) rows))%nat.
Proof.
  apply (output_sample_has_both_directions (frame_of duplicate_text)).
  reflexivity.
Defined.

(** C5, as stated, fails: with two forward rows and one reverse row for
    S1, S1 is in the output and has two forward rows in the input. *)
Lemma output_sample_two_forward_rows :
  ¬ (∀ df out rows w,
       manifest_v2 df = Ok out → long_rows df = Ok rows →
       w ∈ wide_rows out →
       length (forward_of (wide_sample_id w) rows) = 1 ∧
       length (reverse_of (wide_sample_id w) rows) = 1).
Proof.
  intros H.
  destruct (H (frame_of duplicate_text)
              {| columns := output_columns;
                 values := [[Str "S1"; Str "/a/f1.fastq"; Str "/a/r1.fastq"];
                            [Str "S1"; Str "/a/f1b.fastq"; Str "/a/r1.fastq"]] |}
              (rows_of duplicate_text)
              {| wide_sample_id := Str "S1";
                 forward_filepath := Str "/a/f1.fastq";
                 reverse_filepath := Str "/a/r1.fastq" |}
              eq_refl eq_refl) as [Hf _].
  - left.
  - vm_compute in Hf. discriminate.
Qed.

(** ** Properties of the program *)

Lemma join_empty rows :
  (∀ s, forward_of s rows = [] ∨ reverse_of s rows = []) → join rows = [].
Proof.
  intros H. destruct (join rows) as [|w ws] eqn:E; [done|].
  assert (w ∈ join rows) as Hw by (rewrite E; left).
  apply join_sample_both in Hw as [Hf Hr].
  destruct (H (wide_sample_id w)); congruence.
Qed.

(** C6. With the required columns and no sample id present in both
    directions (in particular with no data rows at all), the run succeeds:
    the output file holds the header record only and the confirmation is
    printed. *)
Theorem empty_join_header_only parse w text df rows :
  fs w !! input_path = Some text →
  parse tab text = Ok df →
  long_rows df = Ok rows →
  (∀ s, forward_of s rows = [] ∨ reverse_of s rows = []) →
  main parse w
  = (Ok (), {| fs := <[output_path := header_line]> (fs w);
               stdout := stdout w ++ [success_message] |}).
Proof.
  intros Hfile Hparse Hrows Hnone.
  rewrite main_run, Hfile, Hparse, (manifest_v2_spec _ _ Hrows).
  rewrite (join_empty _ Hnone), to_csv_text_output. simpl.
  by rewrite string_app_empty.
Qed.

Lemma empty_join_header_only_witness :
  rows_of empty_text = [] ∧
  main Plain.parse (world_with empty_text)
  = (Ok (), {| fs := <[output_path := header_line]> {[ input_path := empty_text ]};
               stdout := [success_message] |}).
Proof.
  split; [reflexivity|].
  apply (empty_join_header_only Plain.parse (world_with empty_text)
           empty_text (frame_of empty_text) []).
  - reflexivity.
  - reflexivity.
  - reflexivity.
  - intros s. left. reflexivity.
Defined.

(** C7. When the input file is missing, cannot be parsed or lacks a
    required column, the run raises and leaves the file store and the
    standard output as they were; and whenever a run changes the state at
    all, the table computation had succeeded and the change is the write
    of its result followed by the confirmation. *)
Theorem failure_writes_nothing parse w :
  (input_failure parse w → ∃ e, main parse w = (Raise e, w)) ∧
  (∀ r w', main parse w = (r, w') → w' ≠ w →
     ∃ text df out,
       fs w !! input_path = Some text ∧ parse tab text = Ok df ∧
       manifest_v2 df = Ok out ∧ r = Ok () ∧
       w' = {| fs := <[output_path := to_csv_text out tab false]> (fs w);
               stdout := stdout w ++ [success_message] |}).
Proof.
  split.
  - intros [Hnone|text e Hfile Hparse|text df c Hfile Hparse Hc Hloc];
      rewrite main_run.
    + rewrite Hnone. by eexists.
    + rewrite Hfile, Hparse. by eexists.
    + rewrite Hfile, Hparse.
      destruct (manifest_v2_missing df c Hc Hloc) as [labels ->]. by eexists.
  - intros r w'. rewrite main_run.
    destruct (fs w !! input_path) as [text|] eqn:Hfile; [|by intros [= <- <-]].
    destruct (parse tab text) as [df|e] eqn:Hparse; [|by intros [= <- <-]].
    destruct (manifest_v2 df) as [out|e] eqn:Hout; [|by intros [= <- <-]].
    intros [= <- <-] _. by exists text, df, out.
Qed.

Lemma failure_writes_nothing_witness :
  (∃ e, main Plain.parse empty_world = (Raise e, empty_world)) ∧
  (∃ e, main Plain.parse (world_with headless_text)
        = (Raise e, world_with headless_text)).
Proof.
  split.
  - apply (proj1 (failure_writes_nothing Plain.parse empty_world)).
    apply input_not_found. reflexivity.
  - apply (proj1 (failure_writes_nothing Plain.parse (world_with headless_text))).
    apply (column_absent _ _ headless_text (frame_of headless_text) "direction").
    + reflexivity.
    + reflexivity.
    + unfold required_columns. right. left.
    + reflexivity.
Defined.

(** C8. After a successful run the output file starts with the header
    record naming sample-id, forward-absolute-filepath and
    reverse-absolute-filepath in this order, separated by tabs; the
    records written are the header and the rows, three fields each, with
    no index field. *)
Theorem output_header_fixed parse w w' :
  main parse w = (Ok (), w') →
  ∃ out,
    columns out = output_columns ∧
    (∀ row, row ∈ values out → length row = 3) ∧
    csv_records out false = output_columns :: (format_row <$> values out) ∧
    fs w' !! output_path
    = Some (header_line ++
            String.concat "" (csv_line tab <$> (format_row <$> values out))).
Proof.
  rewrite main_run.
  destruct (fs w !! input_path) as [text|]; [|done].
  destruct (parse tab text) as [df|e]; [|done].
  destruct (manifest_v2 df) as [out|e] eqn:Hout; [|done].
  intros [= <-]. exists out.
  apply manifest_v2_inv in Hout as (rows & _ & ->). simpl.
  split; [done|]. split; [|split].
  - by intros row (ws & -> & _)%list_elem_of_fmap.
  - unfold csv_records. simpl. f_equal. apply (imap_const format_row).
  - by rewrite lookup_insert_eq, to_csv_text_output.
Qed.

Lemma output_header_fixed_witness :
  ∃ out,
    columns out = output_columns ∧
    (∀ row, row ∈ values out → length row = 3) ∧
    csv_records out false = output_columns :: (format_row <$> values out) ∧
    fs (main Plain.parse (world_with scenario_text)).2 !! output_path
    = Some (header_line ++
            String.concat "" (csv_line tab <$> (format_row <$> values out))).
Proof.
  apply (output_header_fixed Plain.parse (world_with scenario_text)).
  reflexivity.
Defined.

(** C9. Two manifests whose frames agree on the columns sample-id,
    direction and absolute-filepath give the same table, the same result
    and the same output file, whatever other columns they carry. *)
Theorem extra_columns_ignored parse w1 w2 text1 text2 df1 df2 t :
  fs w1 !! input_path = Some text1 →
  fs w2 !! input_path = Some text2 →
  parse tab text1 = Ok df1 →
  parse tab text2 = Ok df2 →
  getitem_list df1 required_columns = Ok t →
  getitem_list df2 required_columns = Ok t →
  manifest_v2 df1 = manifest_v2 df2 ∧
  (main parse w1).1 = (main parse w2).1 ∧
  fs (main parse w1).2 !! output_path = fs (main parse w2).2 !! output_path.
Proof.
  intros Hf1 Hf2 Hp1 Hp2 Ht1 Ht2.
  assert (∃ rows, long_rows df1 = Ok rows ∧ long_rows df2 = Ok rows)
    as (rows & Hr1 & Hr2).
  { unfold long_rows. rewrite Ht1, Ht2. by eexists. }
  rewrite !main_run, Hf1, Hf2, Hp1, Hp2.
  rewrite (manifest_v2_spec _ _ Hr1), (manifest_v2_spec _ _ Hr2). simpl.
  by rewrite !lookup_insert_eq.
Qed.

Lemma extra_columns_ignored_witness :
  frame_of scenario_text ≠ frame_of annotated_text ∧
  manifest_v2 (frame_of scenario_text) = manifest_v2 (frame_of annotated_text) ∧
  (main Plain.parse (world_with scenario_text)).1
  = (main Plain.parse (world_with annotated_text)).1 ∧
  fs (main Plain.parse (world_with scenario_text)).2 !! output_path
  = fs (main Plain.parse (world_with annotated_text)).2 !! output_path.
Proof.
  split; [by vm_compute|].
  apply (extra_columns_ignored Plain.parse
           (world_with scenario_text) (world_with annotated_text)
           scenario_text annotated_text
           (frame_of scenario_text) (frame_of annotated_text)
           {| columns := required_columns;
              values := [[Str "S1"; Str "forward"; Str "/a/f1.fastq"];
                         [Str "S1"; Str "reverse"; Str "/a/r1.fastq"];
                         [Str "S2"; Str "forward"; Str "/a/f2.fastq"]] |});
    reflexivity.
Defined.

(** C10. A run changes no file other than manifest_v2.tsv; in particular
    manifest.tsv is left as it was. *)
Theorem only_output_file_written parse w p :
  p ≠ output_path →
  fs (main parse w).2 !! p = fs w !! p.
Proof.
  intros Hp. rewrite main_run.
  destruct (fs w !! input_path) as [text|]; [|done].
  destruct (parse tab text) as [df|e]; [|done].
  destruct (manifest_v2 df) as [out|e]; [|done].
  simpl. by rewrite lookup_insert_ne.
Qed.

Lemma only_output_file_written_witness :
  input_path ≠ output_path ∧
  fs (main Plain.parse (world_with scenario_text)).2 !! input_path
  = fs (world_with scenario_text) !! input_path.
Proof.
  split; [done|].
  apply (only_output_file_written Plain.parse (world_with scenario_text)).
  done.
Defined.

(** ** Further properties of the table computation *)

(** X1. The table computation succeeds exactly when the three columns are
    present, and then yields the three output columns; when it fails, a
    required column is absent and the exception is a [KeyError]: the mask,
    the relabelling and the join themselves never fail. *)
Theorem table_computation_outcome df :
  match manifest_v2 df with
  | Ok out =>
      (∀ c, c ∈ required_columns → is_Some (get_loc c (columns df))) ∧
      columns out = output_columns
  | Raise e =>
      (∃ c, c ∈ required_columns ∧ get_loc c (columns df) = None) ∧
      ∃ labels, e = KeyError labels
  end.
Proof.
  destruct (get_loc "sample-id" (columns df)) as [s|] eqn:Hs;
  destruct (get_loc "direction" (columns df)) as [d|] eqn:Hd;
  destruct (get_loc "absolute-filepath" (columns df)) as [p|] eqn:Hp.
  1: { rewrite (manifest_v2_at df s d p Hs Hd Hp). split; [|done].
       intros c Hc. unfold required_columns in Hc.
       rewrite !elem_of_cons, elem_of_nil in Hc.
       destruct Hc as [->|[->|[->|[]]]]; eauto. }
  all: match goal with
       | Hn : get_loc ?c _ = None |- _ =>
           destruct (manifest_v2_missing df c) as [labels ->];
           [unfold required_columns; set_solver | exact Hn |];
           split; [exists c; split; [unfold required_columns; set_solver | exact Hn]
                  | by exists labels]
       end.
Qed.

(** X2. A missing direction column is reported first, whatever else is
    missing; with the direction column present, the exception lists the
    columns missing among sample-id and absolute-filepath. *)
Theorem missing_columns_reported df :
  (get_loc "direction" (columns df) = None →
   manifest_v2 df = Raise (KeyError ["direction"])) ∧
  (∀ missing,
     is_Some (get_loc "direction" (columns df)) →
     filter (λ l, get_loc l (columns df) = None)
       ["sample-id"; "absolute-filepath"] = missing →
     missing ≠ [] →
     manifest_v2 df = Raise (KeyError missing)).
Proof.
  split.
  - intros Hd. unfold manifest_v2, fwd, getitem. by rewrite Hd.
  - intros missing [d Hd] Hmiss Hne.
    unfold manifest_v2, fwd, getitem. rewrite Hd. simpl.
    unfold getitem_mask. rewrite length_series_eq, decide_True by done.
    simpl. unfold getitem_list. simpl. rewrite Hmiss.
    by destruct missing.
Qed.

Lemma missing_columns_reported_witness :
  manifest_v2 (frame_of headless_text) = Raise (KeyError ["direction"]) ∧
  manifest_v2 (frame_of pathless_text) = Raise (KeyError ["absolute-filepath"]).
Proof.
  split.
  - apply (proj1 (missing_columns_reported (frame_of headless_text))).
    reflexivity.
  - apply (proj2 (missing_columns_reported (frame_of pathless_text))).
    + by eexists.
    + reflexivity.
    + done.
Defined.

Lemma fmap_sample_id_pairs f (L : list ManifestRow) :
  wide_sample_id <$> (pair_up f <$> L) = replicate (length L) (sample_id f).
Proof. induction L as [|r L IH]; [done|]. simpl. by rewrite <- IH. Qed.

(** X4. The sample ids of the output rows follow the forward rows of the
    input in their order, each forward row contributing its id once per
    reverse row of that id. *)
Theorem output_order_follows_forward_rows df rows :
  long_rows df = Ok rows →
  ∃ out, manifest_v2 df = Ok out ∧
    wide_sample_id <$> wide_rows out
    = (f ← filter is_forward rows;
       replicate (length (reverse_of (sample_id f) rows)) (sample_id f)).
Proof.
  intros Hrows. eexists. split; [by apply manifest_v2_spec|].
  rewrite wide_rows_cells. unfold join.
  induction (filter is_forward rows) as [|f F IH]; [done|].
  by rewrite !bind_cons, fmap_app, IH, fmap_sample_id_pairs.
Qed.

Lemma output_order_follows_forward_rows_witness :
  ∃ out, manifest_v2 (frame_of shuffled_text) = Ok out ∧
    wide_sample_id <$> wide_rows out
    = (f ← filter is_forward (rows_of shuffled_text);
       replicate (length (reverse_of (sample_id f) (rows_of shuffled_text)))
         (sample_id f)).
Proof.
  apply (output_order_follows_forward_rows (frame_of shuffled_text)).
  reflexivity.
Defined.

Lemma NoDup_fmap_count {A B} `{!EqDecision B} (g : A → B) (l : list A) y :
  NoDup (g <$> l) → (length (filter (λ x, g x = y) l) ≤ 1)%nat.
Proof.
  induction l as [|x l IH]; [simpl; lia|].
  rewrite fmap_cons, NoDup_cons, filter_cons. intros [Hx Hl].
  specialize (IH Hl). case_decide as Hg; [|done]. simpl.
  destruct (filter (λ x0, g x0 = y) l) as [|x' k] eqn:E; [simpl; lia|].
  exfalso. apply Hx.
  assert (x' ∈ filter (λ x0, g x0 = y) l) as Hin by (rewrite E; left).
  apply list_elem_of_filter in Hin as [Hg' Hin].
  rewrite Hg, <- Hg'. by apply list_elem_of_fmap_2.
Qed.

(** X5. When the forward rows have pairwise distinct sample ids and so
    have the reverse rows, no sample id occurs in two output rows: the
    output is one row per sample. *)
Theorem unique_rows_give_unique_samples df rows :
  long_rows df = Ok rows →
  NoDup (sample_id <$> filter is_forward rows) →
  NoDup (sample_id <$> filter is_reverse rows) →
  ∃ out, manifest_v2 df = Ok out ∧ NoDup (wide_sample_id <$> wide_rows out).
Proof.
  intros Hrows Hfwd Hrev. eexists. split; [by apply manifest_v2_spec|].
  rewrite wide_rows_cells. apply NoDup_fmap_unique. intros s.
  rewrite join_pairs_of.
  rewrite (length_filter_pairs (λ w, wide_sample_id w = s)
             (λ f, sample_id f = s) (λ r, sample_id r = s)).
  - pose proof (NoDup_fmap_count sample_id _ s Hfwd).
    pose proof (NoDup_fmap_count sample_id _ s Hrev). nia.
  - intros f r. simpl. split.
    + intros [Hk Hs]. split; congruence.
    + intros [Hf Hr]. split; congruence.
Qed.

Lemma unique_rows_give_unique_samples_witness :
  ∃ out, manifest_v2 (frame_of paired_text) = Ok out ∧
         NoDup (wide_sample_id <$> wide_rows out).
Proof.
  apply (unique_rows_give_unique_samples _ (rows_of paired_text)).
  - reflexivity.
  - apply (bool_decide_unpack _). vm_compute. exact I.
  - apply (bool_decide_unpack _). vm_compute. exact I.
Defined.

Lemma join_filter_directions rows :
  join (filter (λ r, is_forward r ∨ is_reverse r) rows) = join rows.
Proof.
  unfold join, reverse_of. rewrite !list_filter_filter.
  assert (∀ P : ManifestRow → Prop, ∀ `{!∀ r, Decision (P r)},
            (∀ r, P r → is_forward r ∨ is_reverse r) →
            filter (λ r, P r ∧ (is_forward r ∨ is_reverse r)) rows
            = filter P rows) as Hkeep.
  { intros P ? HP. apply list_filter_iff. intros r. split; [tauto|].
    intros Hr. split; [done|]. by apply HP. }
  rewrite (Hkeep is_forward _) by tauto.
  rewrite (Hkeep is_reverse _) by tauto. done.
Qed.

(** X6. Rows whose direction is neither forward nor reverse (another
    word, a number, a missing value) have no effect: the table computed
    from a frame is the one computed from the frame without these rows. *)
Theorem other_directions_ignored df df' rows :
  long_rows df = Ok rows →
  long_rows df' = Ok (filter (λ r, is_forward r ∨ is_reverse r) rows) →
  manifest_v2 df' = manifest_v2 df.
Proof.
  intros Hrows Hrows'.
  rewrite (manifest_v2_spec _ _ Hrows), (manifest_v2_spec _ _ Hrows').
  by rewrite join_filter_directions.
Qed.

Lemma other_directions_ignored_witness :
  length (rows_of mixed_text) = 5 ∧
  length (rows_of scenario_text) = 3 ∧
  manifest_v2 (frame_of scenario_text) = manifest_v2 (frame_of mixed_text).
Proof.
  split; [reflexivity|]. split; [reflexivity|].
  apply (other_directions_ignored (frame_of mixed_text) (frame_of scenario_text)
           (rows_of mixed_text)); reflexivity.
Defined.

Lemma pairs_of_Permutation (F F' R R' : list ManifestRow) :
  F ≡ₚ F' → R ≡ₚ R' → pairs_of F R ≡ₚ pairs_of F' R'.
Proof.
  intros HF HR. unfold pairs_of. transitivity
    (f ← F; pair_up f <$> filter (λ r, sample_id r = sample_id f) R').
  - clear HF. induction F as [|f F IH]; [done|].
    rewrite !bind_cons. by rewrite IH, HR.
  - by rewrite HF.
Qed.

(** X7. The order of the input rows decides only the order of the output
    rows: two frames with the same rows in different orders give tables
    with the same columns and the same rows, up to order. *)
Theorem input_row_order_irrelevant df df' rows rows' :
  long_rows df = Ok rows →
  long_rows df' = Ok rows' →
  rows ≡ₚ rows' →
  ∃ out out', manifest_v2 df = Ok out ∧ manifest_v2 df' = Ok out' ∧
              columns out = columns out' ∧ values out ≡ₚ values out'.
Proof.
  intros Hrows Hrows' Hperm. do 2 eexists.
  split; [by apply manifest_v2_spec|]. split; [by apply manifest_v2_spec|].
  split; [done|]. simpl. apply fmap_Permutation.
  rewrite !join_pairs_of. apply pairs_of_Permutation; by rewrite Hperm.
Qed.

Lemma input_row_order_irrelevant_witness :
  rows_of paired_text ≠ rows_of shuffled_text ∧
  ∃ out out', manifest_v2 (frame_of paired_text) = Ok out ∧
              manifest_v2 (frame_of shuffled_text) = Ok out' ∧
              columns out = columns out' ∧ values out ≡ₚ values out'.
Proof.
  split; [by vm_compute|].
  apply (input_row_order_irrelevant _ _
           (rows_of paired_text) (rows_of shuffled_text)).
  - reflexivity.
  - reflexivity.
  - apply (bool_decide_unpack _). vm_compute. exact I.
Defined.

(** ** Further properties of the program *)



(** X8. Running the script again after a successful run succeeds, leaves
    every file as the first run left it and prints the confirmation once
    more: the first run does not touch its input, and the second writes
    the same text over the output. *)
Theorem second_run_changes_no_file parse w w1 :
  main parse w = (Ok (), w1) →
  ∃ w2, main parse w1 = (Ok (), w2) ∧
        fs w2 = fs w1 ∧ stdout w2 = (stdout w1 ++ [success_message])%list.
Proof.
  rewrite main_run.
  destruct (fs w !! input_path) as [text|] eqn:Hfile; [|done].
  destruct (parse tab text) as [df|e] eqn:Hparse; [|done].
  destruct (manifest_v2 df) as [out|e] eqn:Hout; [|done].
  intros [= <-]. eexists. rewrite main_run. simpl.
  rewrite lookup_insert_ne by done. rewrite Hfile, Hparse, Hout.
  split; [done|]. simpl. split; [|done]. apply insert_insert_eq.
Qed.

Lemma second_run_changes_no_file_witness :
  ∃ w2, main Plain.parse (main Plain.parse (world_with scenario_text)).2
        = (Ok (), w2) ∧
        fs w2 = fs (main Plain.parse (world_with scenario_text)).2 ∧
        stdout w2 = [success_message; success_message].
Proof.
  apply (second_run_changes_no_file Plain.parse (world_with scenario_text)).
  reflexivity.
Defined.

Lemma string_app_assoc (x y z : string) : (x ++ y) ++ z = x ++ (y ++ z).
Proof.
  induction x as [|a x IH]; [done|].
  change ((String a (x ++ y)) ++ z = String a (x ++ (y ++ z))).
  change (String a ((x ++ y) ++ z) = String a (x ++ (y ++ z))).
  by rewrite IH.
Qed.

Lemma csv_line_plain (a b c : string) :
  needs_quote tab a = false → needs_quote tab b = false →
  needs_quote tab c = false →
  csv_line tab [a; b; c] = a ++ String tab (b ++ String tab (c ++ linesep)).
Proof.
  intros Ha Hb Hc.
  assert (csv_line tab [a; b; c]
          = (csv_field tab a ++ String tab "" ++ csv_field tab b ++
             String tab "" ++ csv_field tab c) ++ linesep) as ->
    by by destruct a.
  unfold csv_field. rewrite Ha, Hb, Hc.
  rewrite !string_app_assoc. done.
Qed.

(** X9. When no cell of the joined table holds a tab, a quote or a line
    break, the output file is the header record followed by one record per
    row, the three cells as they are, separated by tabs and ended by a
    line feed. *)
Theorem plain_cells_written_verbatim parse w text df out :
  fs w !! input_path = Some text →
  parse tab text = Ok df →
  manifest_v2 df = Ok out →
  (∀ row c, row ∈ values out → c ∈ row →
            needs_quote tab (format_scalar c) = false) →
  fs (main parse w).2 !! output_path
  = Some (header_line ++ String.concat "" (data_line <$> wide_rows out)).
Proof.
  intros Hfile Hparse Hout Hplain.
  rewrite main_run, Hfile, Hparse, Hout. simpl. rewrite lookup_insert_eq.
  apply manifest_v2_inv in Hout as (rows & _ & ->).
  rewrite to_csv_text_output, wide_rows_cells. do 3 f_equal.
  simpl in Hplain. rewrite <- !list_fmap_compose.
  apply list_fmap_ext. intros i [s a b] Hi. simpl.
  assert (wide_cells {| wide_sample_id := s; forward_filepath := a;
                        reverse_filepath := b |} ∈ wide_cells <$> join rows)
    as Hrow by (apply list_elem_of_fmap_2; by eapply list_elem_of_lookup_2).
  unfold data_line. simpl. apply csv_line_plain.
  - apply (Hplain _ s Hrow). left.
  - apply (Hplain _ a Hrow). right. left.
  - apply (Hplain _ b Hrow). right. right. left.
Qed.

Lemma plain_cells_written_verbatim_witness :
  fs (main Plain.parse (world_with scenario_text)).2 !! output_path
  = Some (header_line ++
          String.concat ""
            [data_line {| wide_sample_id := Str "S1";
                          forward_filepath := Str "/a/f1.fastq";
                          reverse_filepath := Str "/a/r1.fastq" |}]).
Proof.
  apply (plain_cells_written_verbatim Plain.parse (world_with scenario_text)
           scenario_text (frame_of scenario_text)
           {| columns := output_columns;
              values := [[Str "S1"; Str "/a/f1.fastq"; Str "/a/r1.fastq"]] |}).
  - reflexivity.
  - reflexivity.
  - reflexivity.
  - intros row c Hrow Hc. apply list_elem_of_singleton in Hrow as ->.
    apply elem_of_cons in Hc as [->|Hc]; [reflexivity|].
    apply elem_of_cons in Hc as [->|Hc]; [reflexivity|].
    apply elem_of_cons in Hc as [->|Hc]; [reflexivity|].
    by apply elem_of_nil in Hc.
Defined.

(** X10. The run never reads its output file: whatever [manifest_v2.tsv]
    held before, the result is the same, and after a successful run so is
    every file. *)
Theorem stale_output_ignored parse w junk :
  let w0 := {| fs := <[output_path := junk]> (fs w); stdout := stdout w |} in
  (main parse w0).1 = (main parse w).1 ∧
  ((main parse w).1 = Ok () → fs (main parse w0).2 = fs (main parse w).2).
Proof.
  intros w0. rewrite !main_run. subst w0. simpl.
  rewrite lookup_insert_ne by done.
  destruct (fs w !! input_path) as [text|]; [|done].
  destruct (parse tab text) as [df|e]; [|done].
  destruct (manifest_v2 df) as [out|e]; [|done].
  simpl. split; [done|]. intros _. apply insert_insert_eq.
Qed.

Lemma stale_output_ignored_witness :
  fs (main Plain.parse
        {| fs := <[output_path := "left over"]> (fs (world_with scenario_text));
           stdout := [] |}).2
  = fs (main Plain.parse (world_with scenario_text)).2.
Proof.
  apply (proj2 (stale_output_ignored Plain.parse (world_with scenario_text)
                  "left over")).
  reflexivity.
Defined.
